(** * tracer: a thin wrapper over an OpenTelemetry-style tracing SDK

    Shallow embedding of [span.go] (span wrapper, attribute accumulator)
    and of the hook registry ([SetErrorFunc] / [SetPanicFunc]).

    Conventions.
    - A Go map field is [option (gmap string V)]: [None] is the nil map,
      [Some m] an allocated one.  Ranging over a nil map visits nothing.
    - Go's [range] over a map visits the entries in an unspecified order;
      the order chosen by the runtime is an explicit argument ([mapiter]).
    - The SDK span behind the [trace.Span] interface is external.  It is
      modelled as a recording span: the list of interface calls issued on
      it, in order.  "Sets the status", "records the error", "ends the
      span" are the corresponding interface calls.
    - Go's [int] is [Z]; the code only stores and forwards integers.
    - An [error] is [option errorValue]: [None] is the nil error.
    - [Span_End] is [End] run as the deferred call itself, where
      [recover()] sees the panic; [Span_EndAt] adds the call depth.
    - The [AddEvent] and [AddLink] calls made on a span are recorded in a
      list of their own ([annotation]).  A [*spanAttributes] pointer is a
      number, dereferenced in an explicit memory. *)

From Stdlib Require Import ZArith PrimFloat.
From stdpp Require Import gmap strings list fin_maps.

Local Open Scope string_scope.
Local Open Scope list_scope.

(** ** Built-in notions *)

(** A non-nil error, observed through its [Error()] method. *)
Record errorValue := errorNew { errMsg : string }.

Abbreviation error := (option errorValue).

(** The order in which the Go runtime visits the entries of a map in a
    [range] loop.  [order i] is the order used by the [i]-th loop of a
    function body; whatever it is, it visits every entry once. *)
Record mapiter := MapIter {
  order : nat → ∀ A : Type, list A → list A;
  order_perm : ∀ i A (l : list A), order i A l ≡ₚ l
}.

(** ** The consumed SDK packages *)

Module codes.
Inductive Code := Unset | Error | Ok.
End codes.

Module attribute.
Inductive Value :=
| BoolValue (b : bool)
| Int64Value (n : Z)
| Float64Value (f : float)
| StringValue (s : string)
| StringSliceValue (l : list string).

Record KeyValue := mkKeyValue { Key : string; Val : Value }.

Definition String (k v : string) : KeyValue := mkKeyValue k (StringValue v).
Definition Bool (k : string) (v : bool) : KeyValue := mkKeyValue k (BoolValue v).
Definition Int (k : string) (v : Z) : KeyValue := mkKeyValue k (Int64Value v).
Definition Float64 (k : string) (v : float) : KeyValue := mkKeyValue k (Float64Value v).
Definition StringSlice (k : string) (v : list string) : KeyValue :=
  mkKeyValue k (StringSliceValue v).

(** The five value kinds the accumulator distinguishes. *)
Inductive Kind := STRING | BOOL | INT64 | FLOAT64 | STRINGSLICE.

Definition kindOf (v : Value) : Kind :=
  match v with
  | BoolValue _ => BOOL
  | Int64Value _ => INT64
  | Float64Value _ => FLOAT64
  | StringValue _ => STRING
  | StringSliceValue _ => STRINGSLICE
  end.

#[global] Instance Kind_eq_dec : EqDecision Kind.
Proof. solve_decision. Defined.
End attribute.

Module trace.
Inductive SpanKind :=
| SpanKindUnspecified
| SpanKindInternal
| SpanKindServer
| SpanKindClient
| SpanKindProducer
| SpanKindConsumer.

(** One call on the [trace.Span] interface.  [CallRecordError err st]
    is [RecordError(err, WithStackTrace(st))]; without the option the
    flag is [false]. *)
Inductive call :=
| CallSetAttributes (kv : list attribute.KeyValue)
| CallRecordError (err : errorValue) (withStackTrace : bool)
| CallSetStatus (code : codes.Code) (description : string)
| CallEnd.

(** The recording span: how it was started and what was called on it. *)
Record Span := mkSpan {
  tracerName : string;
  name : string;
  kind : SpanKind;
  calls : list call
}.

Definition issue (c : call) (sp : Span) : Span :=
  mkSpan (tracerName sp) (name sp) (kind sp) (calls sp ++ [c]).

Definition SetAttributes (kv : list attribute.KeyValue) := issue (CallSetAttributes kv).
Definition RecordError (err : errorValue) (withStackTrace : bool) :=
  issue (CallRecordError err withStackTrace).
Definition SetStatus (code : codes.Code) (description : string) :=
  issue (CallSetStatus code description).
Definition End_ := issue CallEnd.

Definition is_CallEnd (c : call) : bool :=
  match c with CallEnd => true | _ => false end.

Definition is_CallSetAttributes (c : call) : bool :=
  match c with CallSetAttributes _ => true | _ => false end.

(** Number of times the span has been ended. *)
Definition endCount (cs : list call) : nat := length (filter is_CallEnd cs).

(** The attributes a span carries after a sequence of calls, by the
    contract of [SetAttributes]: a key that already exists is
    overwritten with the new value. *)
Definition setAttrs (kv : list attribute.KeyValue)
    (st : gmap string attribute.Value) : gmap string attribute.Value :=
  foldl (λ st e, <[attribute.Key e := attribute.Val e]> st) st kv.

Definition attrStep (st : gmap string attribute.Value) (c : call)
    : gmap string attribute.Value :=
  match c with
  | CallSetAttributes kv => setAttrs kv st
  | _ => st
  end.

Definition attributesOf (cs : list call) : gmap string attribute.Value :=
  foldl attrStep ∅ cs.
End trace.

Module sync.
(** [sync.Once]: [done] records that [Do] has run its argument. *)
Record Once := mkOnce { done : bool }.

Definition Do {S : Type} (o : Once) (f : S → S) (s : S) : Once * S :=
  if done o then (o, s) else (mkOnce true, f s).
End sync.

(** ** Package tracer: data *)

Record spanAttributes := mkAttrs {
  Str : option (gmap string string);
  Bool : option (gmap string bool);
  Slice : option (gmap string (list string));
  Int : option (gmap string Z);
  Float : option (gmap string float)
}.

Record startOptions := mkStartOptions {
  Kind : string;
  TracerName : string
}.

Definition kindMap : gmap string trace.SpanKind :=
  <["internal" := trace.SpanKindInternal]>
  (<["server" := trace.SpanKindServer]>
  (<["client" := trace.SpanKindClient]>
  (<["producer" := trace.SpanKindProducer]>
  (<["consumer" := trace.SpanKindConsumer]> ∅)))).

Definition NewAttrs : spanAttributes := mkAttrs None None None None None.

(** The entries of a map field; a nil map has none. *)
Definition entries {V : Type} (m : option (gmap string V)) : gmap string V :=
  default ∅ m.

(** [for k, v := range m] as the [i]-th loop of the body: the entries of
    [m] in the order the runtime picks. *)
Definition range {V : Type} (it : mapiter) (i : nat)
    (m : option (gmap string V)) : list (string * V) :=
  order it i _ (map_to_list (entries m)).

(** ** Attribute accumulator *)

Definition Parse (it : mapiter) (a : spanAttributes) : list attribute.KeyValue :=
  let out := [] in
  let out := foldl (λ out kv, out ++ [attribute.String kv.1 kv.2]) out (range it 0 (Str a)) in
  let out := foldl (λ out kv, out ++ [attribute.Bool kv.1 kv.2]) out (range it 1 (Bool a)) in
  let out := foldl (λ out kv, out ++ [attribute.Int kv.1 kv.2]) out (range it 2 (Int a)) in
  let out := foldl (λ out kv, out ++ [attribute.Float64 kv.1 kv.2]) out (range it 3 (Float a)) in
  let out := foldl (λ out kv, out ++ [attribute.StringSlice kv.1 kv.2]) out (range it 4 (Slice a)) in
  out.

(** [if m == nil { m = map{} }; m[k] = v] *)
Definition assign {V : Type} (m : option (gmap string V)) (k : string) (v : V)
    : option (gmap string V) :=
  let m := match m with None => Some ∅ | Some m => Some m end in
  (λ m, <[k := v]> m) <$> m.

Definition StrKV (k v : string) (a : spanAttributes) : spanAttributes :=
  mkAttrs (assign (Str a) k v) (Bool a) (Slice a) (Int a) (Float a).

Definition BoolKV (k : string) (v : bool) (a : spanAttributes) : spanAttributes :=
  mkAttrs (Str a) (assign (Bool a) k v) (Slice a) (Int a) (Float a).

Definition IntKV (k : string) (v : Z) (a : spanAttributes) : spanAttributes :=
  mkAttrs (Str a) (Bool a) (Slice a) (assign (Int a) k v) (Float a).

Definition FloatKV (k : string) (v : float) (a : spanAttributes) : spanAttributes :=
  mkAttrs (Str a) (Bool a) (Slice a) (Int a) (assign (Float a) k v).

Definition SliceKV (k : string) (v : list string) (a : spanAttributes) : spanAttributes :=
  mkAttrs (Str a) (Bool a) (assign (Slice a) k v) (Int a) (Float a).

Definition ErrorKV (k : string) (v : error) (a : spanAttributes) : spanAttributes :=
  let str := match Str a with None => Some ∅ | Some m => Some m end in
  match v with
  | None => mkAttrs ((λ m, <[k := "<nil>"]> m) <$> str) (Bool a) (Slice a) (Int a) (Float a)
  | Some e => mkAttrs ((λ m, <[k := errMsg e]> m) <$> str) (Bool a) (Slice a) (Int a) (Float a)
  end.

(** A call of one of the typed setters, with its arguments. *)
Inductive setter :=
| CallStrKV (k v : string)
| CallBoolKV (k : string) (v : bool)
| CallIntKV (k : string) (v : Z)
| CallFloatKV (k : string) (v : float)
| CallSliceKV (k : string) (v : list string)
| CallErrorKV (k : string) (v : error).

Definition runSetter (c : setter) (a : spanAttributes) : spanAttributes :=
  match c with
  | CallStrKV k v => StrKV k v a
  | CallBoolKV k v => BoolKV k v a
  | CallIntKV k v => IntKV k v a
  | CallFloatKV k v => FloatKV k v a
  | CallSliceKV k v => SliceKV k v a
  | CallErrorKV k v => ErrorKV k v a
  end.

Definition runSetters (cs : list setter) (a : spanAttributes) : spanAttributes :=
  foldl (λ a c, runSetter c a) a cs.

(** The key a setter call writes, and the entry it makes [Parse] emit. *)
Definition setterKey (c : setter) : string :=
  match c with
  | CallStrKV k _ | CallBoolKV k _ | CallIntKV k _
  | CallFloatKV k _ | CallSliceKV k _ | CallErrorKV k _ => k
  end.

Definition setterValue (c : setter) : attribute.Value :=
  match c with
  | CallStrKV _ v => attribute.StringValue v
  | CallBoolKV _ v => attribute.BoolValue v
  | CallIntKV _ v => attribute.Int64Value v
  | CallFloatKV _ v => attribute.Float64Value v
  | CallSliceKV _ v => attribute.StringSliceValue v
  | CallErrorKV _ None => attribute.StringValue "<nil>"
  | CallErrorKV _ (Some e) => attribute.StringValue (errMsg e)
  end.

Definition setterKind (c : setter) : attribute.Kind := attribute.kindOf (setterValue c).

(** The entries of [out] for key [k] whose value has kind [c]. *)
Definition entriesFor (k : string) (c : attribute.Kind)
    (out : list attribute.KeyValue) : list attribute.KeyValue :=
  filter (λ e, attribute.Key e = k ∧ attribute.kindOf (attribute.Val e) = c) out.

(** All entries of [out] for key [k]. *)
Definition entriesForKey (k : string) (out : list attribute.KeyValue)
    : list attribute.KeyValue :=
  filter (λ e, attribute.Key e = k) out.

Section tracer.

(** Non-nil dynamic values (what an [any] can hold), the [%v] verb of
    package [fmt], and the [context] package are taken as given.  An
    [any] is [option dyn]; [None] is the nil interface. *)
Variable dyn : Type.
Variable Sprint_v : dyn → string.
Variable Context : Type.
Variable ContextWithSpan : Context → trace.Span → Context.

(** [fmt.Errorf(prefix + "%v", r)] *)
Definition Errorf_v (prefix : string) (r : dyn) : errorValue :=
  errorNew (prefix +:+ Sprint_v r).

(** [otel.Tracer(tracerName).Start(ctx, spanName, trace.WithSpanKind(kind))] *)
Definition Tracer_Start (tracerName : string) (ctx : Context) (spanName : string)
    (kind : trace.SpanKind) : Context * trace.Span :=
  let span := trace.mkSpan tracerName spanName kind [] in
  (ContextWithSpan ctx span, span).

(** The state of the running goroutine the code can observe: the value
    of a panic that is unwinding, if any.  Since Go 1.21 a pending panic
    always carries a non-nil value ([panic(nil)] raises a
    [*runtime.PanicNilError]). *)
Record goroutine := mkGoroutine { panicking : option dyn }.

(** [recover()] called directly by a deferred function: returns the
    panic value (nil when not panicking) and stops the unwinding. *)
Definition recover (g : goroutine) : option dyn * goroutine :=
  (panicking g, mkGoroutine None).

(** ** Span wrapper *)

Record Span := mkSpanHandle {
  Span_Ctx : Context;
  Span_Span : trace.Span;
  Span_Attrs : spanAttributes
}.

(** A call [s.Span.m(...)] on the underlying span. *)
Definition onSpan (m : trace.Span → trace.Span) (s : Span) : Span :=
  mkSpanHandle (Span_Ctx s) (m (Span_Span s)) (Span_Attrs s).

Definition New (ctx : Context) (spanName : string) (tracerArgs : list startOptions) : Span :=
  let opt := mkStartOptions "" "" in
  let kind := trace.SpanKindInternal in
  let '(opt, kind) :=
    match tracerArgs with
    | o :: _ =>
        (o, match kindMap !! Kind o with
            | Some spanKind => spanKind
            | None => kind
            end)
    | [] => (opt, kind)
    end in
  let '(ctx, span) := Tracer_Start (TracerName opt) ctx spanName kind in
  mkSpanHandle ctx span NewAttrs.

Definition Span_Extract (it : mapiter) (s : Span) : Span :=
  onSpan (trace.SetAttributes (Parse it (Span_Attrs s))) s.

Definition Span_OK (msg : list string) (s : Span) : Span :=
  let description := "" in
  let description := match msg with m :: _ => m | [] => description end in
  onSpan (trace.SetStatus codes.Ok description) s.

Definition Span_SError (msg : string) (s : Span) : Span :=
  if decide (msg = "") then s
  else onSpan (trace.SetStatus codes.Error msg) s.

Definition Span_Error (err : error) (recordError : list bool) (s : Span) : Span :=
  match err with
  | Some e =>
      let s :=
        if (0 <? length recordError)%nat && nth 0 recordError false
        then onSpan (trace.RecordError e false) s
        else s in
      onSpan (trace.SetStatus codes.Error (errMsg e)) s
  | None => s
  end.

Definition Span_End (it : mapiter) (s : Span) (g : goroutine) : Span * goroutine :=
  let '(r, g) := recover g in
  match r with
  | Some r =>
      let err := Errorf_v "recovered from panic: " r in
      let s := onSpan (trace.RecordError err true) s in
      let s := Span_Error (Some err) [] s in
      let s := onSpan trace.End_ s in
      (s, g)
  | None =>
      let s := Span_Extract it s in
      let s := onSpan trace.End_ s in
      (s, g)
  end.

(** ** Hook registry *)

Record config := mkConfig {
  errorFunc : option (error → error);
  panicFunc : option (option dyn → unit)
}.

(** The package-level variables [cfg] and [once]. *)
Record hooks := mkHooks { cfg : config; once : sync.Once }.

(** Their values when the process starts. *)
Definition hooks0 : hooks := mkHooks (mkConfig None None) (sync.mkOnce false).

Definition SetErrorFunc (fn : option (error → error)) (h : hooks) : hooks :=
  let '(o, c) := sync.Do (once h) (λ c, mkConfig fn (panicFunc c)) (cfg h) in
  mkHooks c o.

Definition SetPanicFunc (fn : option (option dyn → unit)) (h : hooks) : hooks :=
  let '(o, c) := sync.Do (once h) (λ c, mkConfig (errorFunc c) fn) (cfg h) in
  mkHooks c o.

(** A call of one of the two setters. *)
Inductive hookCall :=
| CallSetErrorFunc (fn : option (error → error))
| CallSetPanicFunc (fn : option (option dyn → unit)).

Definition runHookCall (c : hookCall) (h : hooks) : hooks :=
  match c with
  | CallSetErrorFunc fn => SetErrorFunc fn h
  | CallSetPanicFunc fn => SetPanicFunc fn h
  end.

Definition runHookCalls (cs : list hookCall) (h : hooks) : hooks :=
  foldl (λ h c, runHookCall c h) h cs.

(** ** Properties of the attribute accumulator *)

(** The entries one [range] loop of [Parse] appends, for a mapping whose
    values are wrapped by [W]. *)
Definition segment {V : Type} (W : V → attribute.Value) (l : list (string * V))
    : list attribute.KeyValue :=
  (λ kv, attribute.mkKeyValue kv.1 (W kv.2)) <$> l.

(** What [Parse] emits for key [k] in kind [c]: the value stored under
    [k] in the mapping of that kind, if any. *)
Definition stored (a : spanAttributes) (k : string) (c : attribute.Kind)
    : option attribute.Value :=
  match c with
  | attribute.STRING => attribute.StringValue <$> entries (Str a) !! k
  | attribute.BOOL => attribute.BoolValue <$> entries (Bool a) !! k
  | attribute.INT64 => attribute.Int64Value <$> entries (Int a) !! k
  | attribute.FLOAT64 => attribute.Float64Value <$> entries (Float a) !! k
  | attribute.STRINGSLICE => attribute.StringSliceValue <$> entries (Slice a) !! k
  end.

(** The list of entries for [k] holding the value [o], if there is one. *)
Definition entryList (k : string) (o : option attribute.Value)
    : list attribute.KeyValue :=
  match o with Some v => [attribute.mkKeyValue k v] | None => [] end.

(** The attributes a [SetAttributes (Parse a)] call leaves on a span that
    had none: per key, the value of the last kind-mapping [Parse] ranges
    over that holds the key. *)
Definition flattened (a : spanAttributes) : gmap string attribute.Value :=
  (attribute.StringSliceValue <$> entries (Slice a)) ∪
  ((attribute.Float64Value <$> entries (Float a)) ∪
  ((attribute.Int64Value <$> entries (Int a)) ∪
  ((attribute.BoolValue <$> entries (Bool a)) ∪
  (attribute.StringValue <$> entries (Str a))))).

(** Which of the six typed setters a call is. *)
Inductive setterName := nStrKV | nBoolKV | nIntKV | nFloatKV | nSliceKV | nErrorKV.

Definition nameOf (c : setter) : setterName :=
  match c with
  | CallStrKV _ _ => nStrKV
  | CallBoolKV _ _ => nBoolKV
  | CallIntKV _ _ => nIntKV
  | CallFloatKV _ _ => nFloatKV
  | CallSliceKV _ _ => nSliceKV
  | CallErrorKV _ _ => nErrorKV
  end.

(** The kind-mapping each setter writes. *)
Definition kindOfName (n : setterName) : attribute.Kind :=
  match n with
  | nStrKV | nErrorKV => attribute.STRING
  | nBoolKV => attribute.BOOL
  | nIntKV => attribute.INT64
  | nFloatKV => attribute.FLOAT64
  | nSliceKV => attribute.STRINGSLICE
  end.

(** Two concrete iteration orders: the entries as [map_to_list] lists
    them, and the reverse. *)
Definition inOrder : mapiter :=
  MapIter (λ _ _ l, l) (λ _ _ l, reflexivity l).

Definition reversed : mapiter :=
  MapIter (λ _ _ l, reverse l) (λ _ _ l, reverse_Permutation l).

(** ** End at any call depth *)

(** [recover()] in a function that is ([direct]) or is not itself the
    deferred call.  Called from deeper, as in
    [defer func() { s.End() }()], it returns nil and the panic keeps
    unwinding. *)
Definition recoverAt (direct : bool) (g : goroutine) : option dyn * goroutine :=
  if direct then recover g else (None, g).

(** [End] with the call depth made explicit; [Span_End] is the case where
    [End] is the deferred call itself. *)
Definition Span_EndAt (direct : bool) (it : mapiter) (s : Span) (g : goroutine)
    : Span * goroutine :=
  let '(r, g) := recoverAt direct g in
  match r with
  | Some r =>
      let err := Errorf_v "recovered from panic: " r in
      let s := onSpan (trace.RecordError err true) s in
      let s := Span_Error (Some err) [] s in
      let s := onSpan trace.End_ s in
      (s, g)
  | None =>
      let s := Span_Extract it s in
      let s := onSpan trace.End_ s in
      (s, g)
  end.

(** ** Events and links *)

(** [time.Time] is taken as given. *)
Variable Time : Type.

(** The options [Add] passes to [AddEvent]. *)
Inductive EventOption :=
| WithTimestamp (t : Time)
| WithAttributes (kv : list attribute.KeyValue).

(** [trace.LinkFromContext(ctx, attrs...)]: a link to the span context
    that [ctx] carries, with the given attributes. *)
Record Link := LinkFromContext {
  linkContext : Context;
  linkAttributes : list attribute.KeyValue
}.

(** The [AddEvent] and [AddLink] calls made on a span, in order.  They
    are recorded in a list of their own, beside [trace.calls]. *)
Inductive annotation :=
| CallAddEvent (name : string) (opts : list EventOption)
| CallAddLink (link : Link).

(** Pointers to accumulators are numbers; a memory [nat → spanAttributes]
    tells what each pointer refers to at a given moment.

    [attrs] is a pointer ([None] is nil); [timestamp] points to a private
    copy of the argument of [Timestamp], so it is an optional value.  The
    [span] field refers to the underlying span of the handle that made the
    descriptor: [Add] is given the annotations of that span. *)
Record spanEvents := mkSpanEvents {
  msg : string;
  attrs : option nat;
  timestamp : option Time
}.

(** The memory after the accumulator behind pointer [p] has become [a]. *)
Definition store (p : nat) (a : spanAttributes) (mem : nat → spanAttributes)
    : nat → spanAttributes :=
  λ q, if decide (q = p) then a else mem q.

Definition Span_Event (m : string) (s : Span) : spanEvents :=
  mkSpanEvents m None None.

Definition Timestamp (input : Time) (e : spanEvents) : spanEvents :=
  mkSpanEvents (msg e) (attrs e) (Some input).

Definition Attributes (input : option nat) (e : spanEvents) : spanEvents :=
  mkSpanEvents (msg e) input (timestamp e).

Definition Add (it : mapiter) (mem : nat → spanAttributes) (e : spanEvents)
    (notes : list annotation) : list annotation :=
  let opts := [] in
  let opts :=
    match timestamp e with
    | Some t => opts ++ [WithTimestamp t]
    | None => opts
    end in
  let opts :=
    match attrs e with
    | Some p => opts ++ [WithAttributes (Parse it (mem p))]
    | None => opts
    end in
  notes ++ [CallAddEvent (msg e) opts].

Definition Span_AddLink (it : mapiter) (ctx : Context) (accs : list spanAttributes)
    (notes : list annotation) : list annotation :=
  let attr := [] in
  let attr := match accs with a :: _ => Parse it a | [] => attr end in
  notes ++ [CallAddLink (LinkFromContext ctx attr)].

(** A call of one of the two configuring methods of the descriptor. *)
Inductive builderCall :=
| CallTimestamp (input : Time)
| CallAttributes (input : option nat).

Definition runBuilderCall (c : builderCall) (e : spanEvents) : spanEvents :=
  match c with
  | CallTimestamp input => Timestamp input e
  | CallAttributes input => Attributes input e
  end.

Definition runBuilderCalls (cs : list builderCall) (e : spanEvents) : spanEvents :=
  foldl (λ e c, runBuilderCall c e) e cs.

(** The argument of the last [Timestamp] call in a sequence, if any. *)
Definition lastTimestamp (cs : list builderCall) : option Time :=
  last (omap (λ c, match c with CallTimestamp t => Some t | _ => None end) cs).

(** The argument of the last [Attributes] call in a sequence; nil when
    there is none. *)
Definition lastAttributes (cs : list builderCall) : option nat :=
  last (omap (λ c, match c with CallAttributes p => Some p | _ => None end) cs)
    ≫= id.

Lemma foldl_append_segment {V : Type} (W : V → attribute.Value)
    (l : list (string * V)) (out : list attribute.KeyValue) :
  foldl (λ out kv, out ++ [attribute.mkKeyValue kv.1 (W kv.2)]) out l
  = out ++ segment W l.
Proof.
  revert out. induction l as [|kv l IH]; intros out; simpl.
  - by rewrite app_nil_r.
  - rewrite IH. by rewrite <- app_assoc.
Qed.

Lemma Parse_segments (it : mapiter) (a : spanAttributes) :
  Parse it a =
    segment attribute.StringValue (range it 0 (Str a)) ++
    segment attribute.BoolValue (range it 1 (Bool a)) ++
    segment attribute.Int64Value (range it 2 (Int a)) ++
    segment attribute.Float64Value (range it 3 (Float a)) ++
    segment attribute.StringSliceValue (range it 4 (Slice a)).
Proof.
  unfold Parse, attribute.String, attribute.Bool, attribute.Int,
    attribute.Float64, attribute.StringSlice.
  rewrite !foldl_append_segment. simpl. by rewrite <- !app_assoc.
Qed.

Lemma range_perm {V : Type} (it : mapiter) (i : nat) (m : option (gmap string V)) :
  range it i m ≡ₚ map_to_list (entries m).
Proof. apply order_perm. Qed.

Lemma range_NoDup_keys {V : Type} (it : mapiter) (i : nat) (m : option (gmap string V)) :
  NoDup ((range it i m).*1).
Proof. rewrite range_perm. apply NoDup_fst_map_to_list. Qed.

Lemma range_to_map {V : Type} (it : mapiter) (i : nat) (m : option (gmap string V)) :
  list_to_map (range it i m) = entries m.
Proof.
  rewrite (list_to_map_proper _ (map_to_list (entries m))).
  - apply list_to_map_to_list.
  - apply range_NoDup_keys.
  - apply range_perm.
Qed.

Lemma filter_key_NoDup {V : Type} (l : list (string * V)) (k : string) :
  NoDup (l.*1) →
  filter (λ kv, kv.1 = k) l =
    match (list_to_map l : gmap string V) !! k with
    | Some v => [(k, v)]
    | None => []
    end.
Proof.
  induction l as [|[k' v'] l IH]; intros Hnd; simpl in *.
  - by rewrite lookup_empty.
  - apply NoDup_cons in Hnd as [Hk' Hnd]. specialize (IH Hnd).
    destruct (decide (k' = k)) as [->|Hne].
    + rewrite filter_cons_True by done. rewrite lookup_insert_eq.
      rewrite IH. by rewrite (not_elem_of_list_to_map_1 _ _ Hk').
    + rewrite filter_cons_False by done. by rewrite lookup_insert_ne.
Qed.

Lemma segment_filter_key {V : Type} (W : V → attribute.Value)
    (l : list (string * V)) (k : string) :
  filter (λ e, attribute.Key e = k) (segment W l)
  = segment W (filter (λ kv, kv.1 = k) l).
Proof.
  induction l as [|kv l IH]; [done|]. simpl.
  destruct (decide (kv.1 = k)) as [He|He].
  - rewrite !filter_cons_True by done. simpl. by rewrite <- IH.
  - by rewrite !filter_cons_False by done.
Qed.

Lemma segment_range_key {V : Type} (W : V → attribute.Value) (it : mapiter)
    (i : nat) (m : option (gmap string V)) (k : string) :
  filter (λ e, attribute.Key e = k) (segment W (range it i m))
  = entryList k (W <$> entries m !! k).
Proof.
  rewrite segment_filter_key, filter_key_NoDup by apply range_NoDup_keys.
  rewrite range_to_map. by destruct (entries m !! k).
Qed.

Lemma segment_filter_kind {V : Type} (W : V → attribute.Value)
    (cW : attribute.Kind) (l : list (string * V)) (k : string) (c : attribute.Kind) :
  (∀ v, attribute.kindOf (W v) = cW) →
  entriesFor k c (segment W l)
  = if decide (c = cW) then filter (λ e, attribute.Key e = k) (segment W l) else [].
Proof.
  intros HW. unfold entriesFor.
  induction l as [|kv l IH]; simpl.
  - by destruct (decide (c = cW)).
  - rewrite !filter_cons. simpl. rewrite IH, HW.
    destruct (decide (c = cW)) as [->|Hne].
    + destruct (decide (kv.1 = k)).
      * by rewrite decide_True.
      * rewrite decide_False; [done|]. by intros [? _].
    + rewrite decide_False; [done|]. intros [_ ?]. by apply Hne.
Qed.

(** For each key and kind, [Parse] emits the value stored under the key
    in the mapping of that kind, once, and nothing else. *)
Lemma Parse_entriesFor (it : mapiter) (a : spanAttributes) (k : string)
    (c : attribute.Kind) :
  entriesFor k c (Parse it a) = entryList k (stored a k c).
Proof.
  rewrite Parse_segments. unfold entriesFor. rewrite !filter_app.
  fold (entriesFor k c (segment attribute.StringValue (range it 0 (Str a)))).
  fold (entriesFor k c (segment attribute.BoolValue (range it 1 (Bool a)))).
  fold (entriesFor k c (segment attribute.Int64Value (range it 2 (Int a)))).
  fold (entriesFor k c (segment attribute.Float64Value (range it 3 (Float a)))).
  fold (entriesFor k c (segment attribute.StringSliceValue (range it 4 (Slice a)))).
  rewrite (segment_filter_kind _ attribute.STRING) by done.
  rewrite (segment_filter_kind _ attribute.BOOL) by done.
  rewrite (segment_filter_kind _ attribute.INT64) by done.
  rewrite (segment_filter_kind _ attribute.FLOAT64) by done.
  rewrite (segment_filter_kind _ attribute.STRINGSLICE) by done.
  rewrite !segment_range_key.
  destruct c; simpl; by rewrite ?app_nil_r.
Qed.

(** All entries [Parse] emits for a key: one per kind-mapping holding
    the key, in the order [Parse] ranges over the mappings. *)
Lemma Parse_entriesForKey (it : mapiter) (a : spanAttributes) (k : string) :
  entriesForKey k (Parse it a) =
    entryList k (stored a k attribute.STRING) ++
    entryList k (stored a k attribute.BOOL) ++
    entryList k (stored a k attribute.INT64) ++
    entryList k (stored a k attribute.FLOAT64) ++
    entryList k (stored a k attribute.STRINGSLICE).
Proof.
  rewrite Parse_segments. unfold entriesForKey. rewrite !filter_app.
  by rewrite !segment_range_key.
Qed.

(** What a setter call stores, and what it leaves alone. *)
Lemma stored_assign {V : Type} (m : option (gmap string V)) (k k' : string) (v : V) :
  entries (assign m k v) !! k' = if decide (k = k') then Some v else entries m !! k'.
Proof.
  unfold assign, entries. destruct m as [m|]; simpl; apply lookup_insert.
Qed.

Lemma runSetter_stored_same (c : setter) (a : spanAttributes) :
  stored (runSetter c a) (setterKey c) (setterKind c) = Some (setterValue c).
Proof.
  destruct c as [k v|k v|k v|k v|k v|k [e|]]; unfold setterKind; simpl;
    try (rewrite stored_assign, decide_True by done; done);
    destruct (Str a); simpl; by rewrite lookup_insert_eq.
Qed.

Lemma runSetter_stored_other (c : setter) (a : spanAttributes) (k : string)
    (d : attribute.Kind) :
  k ≠ setterKey c ∨ d ≠ setterKind c →
  stored (runSetter c a) k d = stored a k d.
Proof.
  intros Hne.
  destruct c as [k0 v|k0 v|k0 v|k0 v|k0 v|k0 [e|]]; unfold setterKind in Hne;
    simpl in Hne; destruct d; simpl; try done;
    (destruct Hne as [Hne|Hne]; [|done]);
    try (rewrite stored_assign, decide_False by done; done);
    destruct (Str a); simpl; by rewrite lookup_insert_ne.
Qed.

Lemma kindOfName_nameOf (c : setter) : kindOfName (nameOf c) = setterKind c.
Proof. by destruct c as [| | | | |? []]. Qed.

Lemma runSetters_snoc (cs : list setter) (c : setter) (a : spanAttributes) :
  runSetters (cs ++ [c]) a = runSetter c (runSetters cs a).
Proof. unfold runSetters. by rewrite foldl_snoc. Qed.

(** After a setter call, [Parse] has exactly one entry for the call's key
    in the call's kind, holding the call's value, whatever came before. *)
Lemma Parse_after_setter (it : mapiter) (c : setter) (a : spanAttributes) :
  entriesFor (setterKey c) (setterKind c) (Parse it (runSetter c a))
  = [attribute.mkKeyValue (setterKey c) (setterValue c)].
Proof. by rewrite Parse_entriesFor, runSetter_stored_same. Qed.

Lemma stored_after_two (c1 c2 : setter) (a : spanAttributes) (k : string)
    (d : attribute.Kind) :
  setterKey c1 = k → setterKey c2 = k →
  stored (runSetter c2 (runSetter c1 a)) k d =
    if decide (d = setterKind c2) then Some (setterValue c2)
    else if decide (d = setterKind c1) then Some (setterValue c1)
    else stored a k d.
Proof.
  intros H1 H2.
  destruct (decide (d = setterKind c2)) as [->|Hd2].
  { rewrite <- H2. apply runSetter_stored_same. }
  rewrite runSetter_stored_other by (by right).
  destruct (decide (d = setterKind c1)) as [->|Hd1].
  { rewrite <- H1. apply runSetter_stored_same. }
  by rewrite runSetter_stored_other by (by right).
Qed.

Lemma stored_NewAttrs (k : string) (d : attribute.Kind) : stored NewAttrs k d = None.
Proof. by destruct d. Qed.

(** C4.  For every accumulator [a], key [k] and error [err], [ErrorKV k
    err] puts the string "<nil>" (when [err] is nil) or exactly the
    message of [err] (when it is not) under [k] in the string-kind
    mapping, allocating the mapping if it was nil and leaving the other
    four mappings as they were; [Parse] then has that string as its one
    string entry for [k]. *)
Theorem ErrorKV_stores_message (it : mapiter) (a : spanAttributes) (k : string)
    (err : error) :
  let msg := match err with None => "<nil>" | Some e => errMsg e end in
  let a' := ErrorKV k err a in
  Str a' = Some (<[k := msg]> (entries (Str a))) ∧
  entries (Str a') !! k = Some msg ∧
  (Bool a', Slice a', Int a', Float a') = (Bool a, Slice a, Int a, Float a) ∧
  entriesFor k attribute.STRING (Parse it a') = [attribute.String k msg].
Proof.
  intros msg a'. subst msg a'.
  assert (Str (ErrorKV k err a)
          = Some (<[k := match err with None => "<nil>" | Some e => errMsg e end]>
                    (entries (Str a)))) as HStr.
  { unfold ErrorKV, entries. by destruct err, (Str a). }
  split; [done|]. split.
  { rewrite HStr. simpl. apply lookup_insert_eq. }
  split.
  { by destruct err. }
  rewrite Parse_entriesFor. simpl. rewrite HStr. simpl.
  by rewrite lookup_insert_eq.
Qed.

(** C6 (amended).  For every accumulator and every key [k] set through
    two typed setters of different value kinds, [Parse] has exactly one
    entry for [k] in each of the two kinds, holding the value given to the
    respective setter, and the two entries are different; on an
    accumulator that held nothing for [k] before, these two are all the
    entries [Parse] has for [k]. *)
Theorem Parse_two_kinds (it : mapiter) (a : spanAttributes) (k : string)
    (c1 c2 : setter) :
  setterKey c1 = k → setterKey c2 = k →
  setterKind c1 ≠ setterKind c2 →
  let e1 := attribute.mkKeyValue k (setterValue c1) in
  let e2 := attribute.mkKeyValue k (setterValue c2) in
  entriesFor k (setterKind c1) (Parse it (runSetters [c1; c2] a)) = [e1] ∧
  entriesFor k (setterKind c2) (Parse it (runSetters [c1; c2] a)) = [e2] ∧
  e1 ≠ e2 ∧
  ((∀ d, stored a k d = None) →
   entriesForKey k (Parse it (runSetters [c1; c2] a)) ≡ₚ [e1; e2]).
Proof.
  intros H1 H2 Hkind e1 e2. subst e1 e2. simpl.
  split; [|split; [|split]].
  - rewrite Parse_entriesFor, (stored_after_two c1 c2 a k) by done.
    rewrite decide_False by done. by rewrite decide_True.
  - rewrite Parse_entriesFor, (stored_after_two c1 c2 a k) by done.
    by rewrite decide_True.
  - intros Heq. apply Hkind. unfold setterKind. congruence.
  - intros Hnone. rewrite Parse_entriesForKey.
    rewrite !(stored_after_two c1 c2 a k) by done.
    rewrite !Hnone.
    destruct (setterKind c1), (setterKind c2); try done; simpl;
      first [reflexivity | apply perm_swap].
Qed.

(** C7.  For every accumulator, every typed setter [n], every key [k]
    and every non-empty sequence of calls to that setter with key [k],
    [Parse] afterwards has exactly one entry for [k] in the setter's kind,
    and it holds the value of the last call. *)
Theorem Parse_last_write_wins (it : mapiter) (a : spanAttributes)
    (n : setterName) (k : string) (cs : list setter) (c : setter) :
  Forall (λ c', nameOf c' = n ∧ setterKey c' = k) (cs ++ [c]) →
  entriesFor k (kindOfName n) (Parse it (runSetters (cs ++ [c]) a))
  = [attribute.mkKeyValue k (setterValue c)].
Proof.
  intros Hall. apply Forall_app in Hall as [_ Hc].
  apply Forall_singleton in Hc as [<- <-].
  rewrite runSetters_snoc, kindOfName_nameOf. apply Parse_after_setter.
Qed.

(** ** Properties of the recording span *)

Lemma setAttrs_to_map (l : list attribute.KeyValue) (st : gmap string attribute.Value) :
  trace.setAttrs l st
  = list_to_map (reverse ((λ e, (attribute.Key e, attribute.Val e)) <$> l)) ∪ st.
Proof.
  unfold trace.setAttrs. revert st.
  induction l as [|e l IH]; intros st; simpl.
  - by rewrite (left_id_L ∅ (∪)).
  - rewrite IH, reverse_cons, list_to_map_app. simpl.
    rewrite <- (assoc_L (∪)). by rewrite <- insert_union_l, (left_id_L ∅ (∪)).
Qed.

Lemma setAttrs_app (l1 l2 : list attribute.KeyValue) (st : gmap string attribute.Value) :
  trace.setAttrs (l1 ++ l2) st = trace.setAttrs l2 (trace.setAttrs l1 st).
Proof. unfold trace.setAttrs. apply foldl_app. Qed.

Lemma setAttrs_segment {V : Type} (W : V → attribute.Value) (it : mapiter) (i : nat)
    (m : option (gmap string V)) (st : gmap string attribute.Value) :
  trace.setAttrs (segment W (range it i m)) st = (W <$> entries m) ∪ st.
Proof.
  rewrite setAttrs_to_map. f_equal. unfold segment.
  rewrite <- list_fmap_compose.
  rewrite (list_to_map_proper _ (prod_map id W <$> map_to_list (entries m))).
  - by rewrite list_to_map_fmap, list_to_map_to_list.
  - rewrite reverse_Permutation, <- list_fmap_compose.
    apply (range_NoDup_keys it i m).
  - rewrite reverse_Permutation. by rewrite range_perm.
Qed.

(** Flushing the output of [Parse] overwrites the span's attributes with
    [flattened a], whatever order the runtime ranged over the mappings. *)
Lemma setAttrs_Parse (it : mapiter) (a : spanAttributes)
    (st : gmap string attribute.Value) :
  trace.setAttrs (Parse it a) st = flattened a ∪ st.
Proof.
  rewrite Parse_segments, !setAttrs_app, !setAttrs_segment.
  unfold flattened. by rewrite !(assoc_L (∪)).
Qed.

Lemma attributesOf_snoc (cs : list trace.call) (c : trace.call) :
  trace.attributesOf (cs ++ [c]) = trace.attrStep (trace.attributesOf cs) c.
Proof. unfold trace.attributesOf. by rewrite foldl_snoc. Qed.

Lemma endCount_snoc (cs : list trace.call) (c : trace.call) :
  trace.endCount (cs ++ [c])
  = (trace.endCount cs + if trace.is_CallEnd c then 1 else 0)%nat.
Proof.
  unfold trace.endCount. rewrite filter_app, length_app, filter_cons, filter_nil.
  by destruct c.
Qed.

Lemma Parse_perm (it1 it2 : mapiter) (a : spanAttributes) :
  Parse it1 a ≡ₚ Parse it2 a.
Proof.
  rewrite !Parse_segments. unfold segment. by rewrite !range_perm.
Qed.

Lemma kindMap_lookup (k : string) :
  kindMap !! k =
    if decide (k = "internal") then Some trace.SpanKindInternal
    else if decide (k = "server") then Some trace.SpanKindServer
    else if decide (k = "client") then Some trace.SpanKindClient
    else if decide (k = "producer") then Some trace.SpanKindProducer
    else if decide (k = "consumer") then Some trace.SpanKindConsumer
    else None.
Proof.
  unfold kindMap.
  repeat (rewrite lookup_insert;
          destruct (decide (_ = k)) as [<-|?]; [done|];
          rewrite decide_False by done).
  apply lookup_empty.
Qed.

(** ** Properties of the span wrapper *)

(** C1.  For every span handle and every panic value [r], [End] run as
    a deferred call while the panic unwinds wraps [r] into the error
    "recovered from panic: <r>", records that error on the span asking for
    a stack trace, sets the status to Error with the error's message, ends
    the underlying span once, and leaves the goroutine no longer
    panicking; context and accumulator are untouched. *)
Theorem Span_End_recovers_panic (it : mapiter) (s : Span) (r : dyn) :
  let err := errorNew ("recovered from panic: " +:+ Sprint_v r) in
  let res := Span_End it s (mkGoroutine (Some r)) in
  panicking res.2 = None ∧
  trace.calls (Span_Span res.1) =
    trace.calls (Span_Span s) ++
      [trace.CallRecordError err true;
       trace.CallSetStatus codes.Error (errMsg err);
       trace.CallEnd] ∧
  trace.endCount (trace.calls (Span_Span res.1))
    = S (trace.endCount (trace.calls (Span_Span s))) ∧
  Span_Ctx res.1 = Span_Ctx s ∧ Span_Attrs res.1 = Span_Attrs s.
Proof.
  intros err res. subst err res. simpl.
  repeat split.
  - by rewrite <- !app_assoc.
  - rewrite !endCount_snoc. simpl. lia.
Qed.

(** C3 (amended).  For every span handle, [Error err flags] changes
    nothing when [err] is nil.  When [err] is not nil it sets the status
    to Error with the message of [err], and before that records the error
    on the span exactly when the first flag is given and true; the error
    is recorded without asking for a stack trace. *)
Theorem Span_Error_spec (s : Span) (flags : list bool) :
  Span_Error None flags s = s ∧
  ∀ e : errorValue,
    let recorded := match flags with b :: _ => b | [] => false end in
    let s' := Span_Error (Some e) flags s in
    trace.calls (Span_Span s') =
      trace.calls (Span_Span s) ++
        (if recorded then [trace.CallRecordError e false] else []) ++
        [trace.CallSetStatus codes.Error (errMsg e)] ∧
    Span_Ctx s' = Span_Ctx s ∧ Span_Attrs s' = Span_Attrs s.
Proof.
  split; [done|]. intros e recorded s'. subst recorded s'.
  destruct flags as [|[] flags]; simpl; repeat split.
  by rewrite <- app_assoc.
Qed.

(** C5.  For every call of [New]: without options the span has kind
    internal; with options the kind is the one named by the first option's
    [Kind] among "internal", "server", "client", "producer", "consumer",
    and internal for every other string. *)
Theorem New_kind (ctx : Context) (spanName : string) :
  let kindOf args := trace.kind (Span_Span (New ctx spanName args)) in
  kindOf [] = trace.SpanKindInternal ∧
  (∀ tn rest,
     kindOf (mkStartOptions "internal" tn :: rest) = trace.SpanKindInternal ∧
     kindOf (mkStartOptions "server" tn :: rest) = trace.SpanKindServer ∧
     kindOf (mkStartOptions "client" tn :: rest) = trace.SpanKindClient ∧
     kindOf (mkStartOptions "producer" tn :: rest) = trace.SpanKindProducer ∧
     kindOf (mkStartOptions "consumer" tn :: rest) = trace.SpanKindConsumer) ∧
  (∀ o rest,
     Kind o ∉ ["internal"; "server"; "client"; "producer"; "consumer"] →
     kindOf (o :: rest) = trace.SpanKindInternal).
Proof.
  intros kindOf. subst kindOf. simpl. split; [done|]. split.
  - intros tn rest. by rewrite !kindMap_lookup.
  - intros o rest Hnot. rewrite kindMap_lookup.
    repeat (destruct (decide _) as [Heq|_];
            [exfalso; apply Hnot; rewrite Heq; set_solver|]).
    done.
Qed.

(** C8.  For every span handle, [Extract] issues one [SetAttributes]
    call carrying the output of [Parse] and leaves the accumulator as it
    was, so the span then carries the accumulated attributes over those it
    had.  A second [Extract] right after carries the same entries again
    (possibly in another order) and leaves the span's attributes equal to
    those after the first. *)
Theorem Span_Extract_idempotent (it1 it2 : mapiter) (s : Span) :
  let s1 := Span_Extract it1 s in
  let s2 := Span_Extract it2 s1 in
  trace.calls (Span_Span s1)
    = trace.calls (Span_Span s) ++ [trace.CallSetAttributes (Parse it1 (Span_Attrs s))] ∧
  Span_Attrs s1 = Span_Attrs s ∧
  trace.attributesOf (trace.calls (Span_Span s1))
    = flattened (Span_Attrs s) ∪ trace.attributesOf (trace.calls (Span_Span s)) ∧
  (∃ kv, trace.calls (Span_Span s2)
           = trace.calls (Span_Span s1) ++ [trace.CallSetAttributes kv] ∧
         kv ≡ₚ Parse it1 (Span_Attrs s)) ∧
  trace.attributesOf (trace.calls (Span_Span s2))
    = trace.attributesOf (trace.calls (Span_Span s1)).
Proof.
  intros s1 s2. subst s1 s2. simpl.
  split; [done|]. split; [done|]. split.
  { by rewrite attributesOf_snoc; simpl; rewrite setAttrs_Parse. }
  split.
  { eexists. split; [done|]. apply Parse_perm. }
  rewrite !attributesOf_snoc. simpl. rewrite !setAttrs_Parse.
  by rewrite (assoc_L (∪)), (idemp_L (∪)).
Qed.

(** C9.  For every span handle, [SError ""] returns the handle
    unchanged: no call reaches the span; for every non-empty [m],
    [SError m] sets the status to Error with description [m] and does
    nothing else. *)
Theorem Span_SError_spec (s : Span) :
  Span_SError "" s = s ∧
  ∀ m : string, m ≠ "" →
    Span_SError m s = onSpan (trace.SetStatus codes.Error m) s ∧
    trace.calls (Span_Span (Span_SError m s))
      = trace.calls (Span_Span s) ++ [trace.CallSetStatus codes.Error m].
Proof.
  split; [done|]. intros m Hm. unfold Span_SError.
  by rewrite decide_False by done.
Qed.

(** C10.  For every span handle, [End] run while a panic unwinds issues
    no [SetAttributes] call: the attributes of the span stay what they
    were before [End], so nothing held only by the accumulator reaches the
    ended span.  [End] on normal return flushes first: it issues
    [SetAttributes] with the output of [Parse], then ends the span. *)
Theorem Span_End_panic_skips_Extract (it : mapiter) (s : Span) (r : dyn) :
  let sp := (Span_End it s (mkGoroutine (Some r))).1 in
  let sn := (Span_End it s (mkGoroutine None)).1 in
  filter trace.is_CallSetAttributes (trace.calls (Span_Span sp))
    = filter trace.is_CallSetAttributes (trace.calls (Span_Span s)) ∧
  trace.attributesOf (trace.calls (Span_Span sp))
    = trace.attributesOf (trace.calls (Span_Span s)) ∧
  trace.endCount (trace.calls (Span_Span sp))
    = S (trace.endCount (trace.calls (Span_Span s))) ∧
  trace.calls (Span_Span sn)
    = trace.calls (Span_Span s) ++
        [trace.CallSetAttributes (Parse it (Span_Attrs s)); trace.CallEnd] ∧
  trace.attributesOf (trace.calls (Span_Span sn))
    = flattened (Span_Attrs s) ∪ trace.attributesOf (trace.calls (Span_Span s)).
Proof.
  intros sp sn. subst sp sn. simpl. repeat split.
  - rewrite !filter_app. simpl. by rewrite !app_nil_r.
  - by rewrite !attributesOf_snoc.
  - rewrite !endCount_snoc. simpl. lia.
  - by rewrite <- app_assoc.
  - rewrite !attributesOf_snoc. simpl. by rewrite setAttrs_Parse.
Qed.

(** ** Properties of the hook registry *)

Lemma once_done_noop (c : hookCall) (h : hooks) :
  sync.done (once h) = true → runHookCall c h = h.
Proof.
  destruct h as [cf [d]]. simpl. intros ->.
  by destruct c.
Qed.

Lemma first_call_closes_gate (c : hookCall) :
  sync.done (once (runHookCall c hooks0)) = true.
Proof. by destruct c. Qed.

(** C2.  For every sequence of calls of [SetErrorFunc] and
    [SetPanicFunc] on the registry of a fresh process, the registry ends
    up as the first call alone leaves it: that call stores its own hook and
    leaves the other hook unset, and every later call to either setter
    changes nothing.  In particular after [SetErrorFunc f] then
    [SetPanicFunc g] the registry holds [f] and no panic hook. *)
Theorem first_setter_wins (c : hookCall) (cs : list hookCall) :
  runHookCalls (c :: cs) hooks0 = runHookCall c hooks0 ∧
  cfg (runHookCall c hooks0) =
    match c with
    | CallSetErrorFunc fn => mkConfig fn None
    | CallSetPanicFunc fn => mkConfig None fn
    end ∧
  ∀ f g, cfg (SetPanicFunc g (SetErrorFunc f hooks0)) = mkConfig f None.
Proof.
  split; [|split; [by destruct c|done]].
  unfold runHookCalls. simpl.
  pose proof (first_call_closes_gate c) as Hdone.
  generalize dependent (runHookCall c hooks0). intros h Hdone.
  induction cs as [|c' cs IH]; simpl; [done|].
  by rewrite once_done_noop.
Qed.

(** ** Further properties of the attribute accumulator *)

Lemma segment_range_length {V : Type} (W : V → attribute.Value) (it : mapiter)
    (i : nat) (m : option (gmap string V)) :
  length (segment W (range it i m)) = size (entries m).
Proof.
  unfold segment. rewrite length_fmap, range_perm. apply length_map_to_list.
Qed.

Lemma Parse_length_sizes (it : mapiter) (a : spanAttributes) :
  length (Parse it a) =
    (size (entries (Str a)) + (size (entries (Bool a)) + (size (entries (Int a)) +
      (size (entries (Float a)) + size (entries (Slice a))))))%nat.
Proof. by rewrite Parse_segments, !length_app, !segment_range_length. Qed.

Lemma segment_kind {V : Type} (W : V → attribute.Value) (cW : attribute.Kind)
    (l : list (string * V)) (e : attribute.KeyValue) :
  (∀ v, attribute.kindOf (W v) = cW) →
  e ∈ segment W l → attribute.kindOf (attribute.Val e) = cW.
Proof.
  intros HW [kv [-> _]]%list_elem_of_fmap. apply HW.
Qed.

Lemma segment_range_NoDup {V : Type} (W : V → attribute.Value) (it : mapiter)
    (i : nat) (m : option (gmap string V)) :
  NoDup (segment W (range it i m)).
Proof.
  apply (NoDup_fmap_1 attribute.Key). unfold segment.
  rewrite <- list_fmap_compose. apply (range_NoDup_keys it i m).
Qed.

Lemma filter_kind_segment {V : Type} (W : V → attribute.Value)
    (cW : attribute.Kind) (l : list (string * V)) (c : attribute.Kind) :
  (∀ v, attribute.kindOf (W v) = cW) →
  filter (λ e, attribute.kindOf (attribute.Val e) = c) (segment W l)
  = if decide (c = cW) then segment W l else [].
Proof.
  intros HW. unfold segment. induction l as [|kv l IH].
  - by destruct (decide (c = cW)).
  - rewrite fmap_cons, filter_cons. simpl. rewrite HW, IH.
    destruct (decide (c = cW)) as [->|Hne].
    + by rewrite decide_True.
    + rewrite decide_False; [done|]. intros ?. by apply Hne.
Qed.

Lemma ErrorKV_unfold (k : string) (v : error) (a : spanAttributes) :
  ErrorKV k v a =
    StrKV k (match v with None => "<nil>" | Some e => errMsg e end) a.
Proof. unfold ErrorKV, StrKV, assign. by destruct v, (Str a). Qed.

Lemma assign_commute {V : Type} (m : option (gmap string V)) (k1 k2 : string)
    (v1 v2 : V) :
  k1 ≠ k2 → assign (assign m k1 v1) k2 v2 = assign (assign m k2 v2) k1 v1.
Proof.
  intros Hne. unfold assign. destruct m; simpl; f_equal; by apply insert_insert_ne.
Qed.

Lemma assign_overwrite {V : Type} (m : option (gmap string V)) (k : string)
    (v1 v2 : V) :
  assign (assign m k v1) k v2 = assign m k v2.
Proof.
  unfold assign. destruct m; simpl; f_equal; apply insert_insert_eq.
Qed.

Lemma size_entries_assign {V : Type} (m : option (gmap string V)) (k : string) (v : V) :
  size (entries (assign m k v)) =
    (size (entries m) + match entries m !! k with Some _ => 0 | None => 1 end)%nat.
Proof.
  unfold assign, entries. destruct m as [m|]; simpl; rewrite map_size_insert;
    destruct (_ !! k); simpl; lia.
Qed.

(** X1.  [Parse] emits exactly what the accumulator holds: an entry is
    in the output if and only if its value is the one stored under its key
    in the mapping of its kind. *)
Theorem Parse_emits_exactly_stored (it : mapiter) (a : spanAttributes)
    (e : attribute.KeyValue) :
  e ∈ Parse it a ↔
  stored a (attribute.Key e) (attribute.kindOf (attribute.Val e))
    = Some (attribute.Val e).
Proof.
  transitivity (e ∈ entriesFor (attribute.Key e)
                     (attribute.kindOf (attribute.Val e)) (Parse it a)).
  { unfold entriesFor. rewrite list_elem_of_filter. by intuition. }
  rewrite Parse_entriesFor. destruct e as [k v]. simpl.
  destruct (stored a k (attribute.kindOf v)) as [w|]; simpl.
  - rewrite list_elem_of_singleton. split; congruence.
  - split; [by intros ?%elem_of_nil|done].
Qed.

(** X2.  The output of [Parse] has no repeated entry. *)
Theorem Parse_NoDup (it : mapiter) (a : spanAttributes) : NoDup (Parse it a).
Proof.
  rewrite Parse_segments.
  repeat (apply NoDup_app; split; [apply segment_range_NoDup|split]);
    try apply segment_range_NoDup;
    intros e He Hin;
    repeat (apply elem_of_app in Hin as [Hin|Hin]);
    (eapply segment_kind in He; [|intros ?; simpl; reflexivity]);
    (eapply segment_kind in Hin; [|intros ?; simpl; reflexivity]); congruence.
Qed.

(** X3.  [Parse] returns as many entries as the five mappings hold
    together; nil mappings count for none. *)
Theorem Parse_length (it : mapiter) (a : spanAttributes) :
  length (Parse it a) =
    (size (entries (Str a)) + size (entries (Bool a)) + size (entries (Int a)) +
     size (entries (Float a)) + size (entries (Slice a)))%nat.
Proof. rewrite Parse_length_sizes. lia. Qed.

(** X4.  [Parse] returns the empty list exactly when every mapping is nil
    or holds no key. *)
Theorem Parse_nil_iff (it : mapiter) (a : spanAttributes) :
  Parse it a = [] ↔
  entries (Str a) = ∅ ∧ entries (Bool a) = ∅ ∧ entries (Int a) = ∅ ∧
  entries (Float a) = ∅ ∧ entries (Slice a) = ∅.
Proof.
  rewrite <- length_zero_iff_nil, Parse_length_sizes.
  rewrite <- !map_size_empty_iff. lia.
Qed.

(** X5.  Whatever order the runtime ranges over the mappings, [Parse]
    lists all string entries first, then the boolean, integer, float and
    string-list entries. *)
Theorem Parse_grouped_by_kind (it : mapiter) (a : spanAttributes) :
  let ofKind c := filter (λ e, attribute.kindOf (attribute.Val e) = c) (Parse it a) in
  Parse it a =
    ofKind attribute.STRING ++ ofKind attribute.BOOL ++ ofKind attribute.INT64 ++
    ofKind attribute.FLOAT64 ++ ofKind attribute.STRINGSLICE.
Proof.
  intros ofKind. subst ofKind. simpl.
  rewrite Parse_segments at 2 3 4 5 6. rewrite !filter_app.
  rewrite !(filter_kind_segment attribute.StringValue attribute.STRING) by done.
  rewrite !(filter_kind_segment attribute.BoolValue attribute.BOOL) by done.
  rewrite !(filter_kind_segment attribute.Int64Value attribute.INT64) by done.
  rewrite !(filter_kind_segment attribute.Float64Value attribute.FLOAT64) by done.
  rewrite !(filter_kind_segment attribute.StringSliceValue attribute.STRINGSLICE) by done.
  simpl. rewrite !app_nil_r. apply Parse_segments.
Qed.

(** X6.  The iteration order does not matter to what is flushed: two
    runs of [Parse] on the same accumulator return the same entries up to
    order, and [SetAttributes] leaves the same attributes for both. *)
Theorem Parse_order_irrelevant (it1 it2 : mapiter) (a : spanAttributes)
    (st : gmap string attribute.Value) :
  Parse it1 a ≡ₚ Parse it2 a ∧
  trace.setAttrs (Parse it1 a) st = trace.setAttrs (Parse it2 a) st.
Proof.
  split.
  - rewrite !Parse_segments. unfold segment. by rewrite !range_perm.
  - by rewrite !setAttrs_Parse.
Qed.

(** X7.  Two setter calls that write different keys, or mappings of
    different kinds, can be made in either order. *)
Theorem setters_commute (c1 c2 : setter) (a : spanAttributes) :
  setterKey c1 ≠ setterKey c2 ∨ setterKind c1 ≠ setterKind c2 →
  runSetter c1 (runSetter c2 a) = runSetter c2 (runSetter c1 a).
Proof.
  intros Hne.
  destruct c1 as [k1 v1|k1 v1|k1 v1|k1 v1|k1 v1|k1 v1],
           c2 as [k2 v2|k2 v2|k2 v2|k2 v2|k2 v2|k2 v2];
    unfold setterKind in Hne; simpl in Hne; simpl;
    rewrite ?ErrorKV_unfold; unfold StrKV, BoolKV, IntKV, FloatKV, SliceKV; simpl;
    try reflexivity;
    (assert (k1 ≠ k2) as Hk by (destruct Hne as [?|Hk]; [done|];
       exfalso; apply Hk; by repeat case_match));
    f_equal; symmetry; by apply assign_commute.
Qed.

(** X8.  A setter call overwrites an earlier call that wrote the same
    key in the same kind of mapping: only the later call matters.  This
    covers [StrKV] and [ErrorKV], which share the string mapping. *)
Theorem setter_overwrites (c1 c2 : setter) (a : spanAttributes) :
  setterKey c1 = setterKey c2 → setterKind c1 = setterKind c2 →
  runSetter c2 (runSetter c1 a) = runSetter c2 a.
Proof.
  intros Hk Hkind.
  destruct c1 as [k1 v1|k1 v1|k1 v1|k1 v1|k1 v1|k1 v1],
           c2 as [k2 v2|k2 v2|k2 v2|k2 v2|k2 v2|k2 v2];
    simpl in Hk; subst;
    try (exfalso; unfold setterKind in Hkind; simpl in Hkind;
         repeat case_match; discriminate);
    simpl; rewrite ?ErrorKV_unfold;
    unfold StrKV, BoolKV, IntKV, FloatKV, SliceKV; simpl;
    f_equal; apply assign_overwrite.
Qed.

(** X9.  A setter call changes nothing [Parse] emits for other keys, nor
    for the same key in other kinds. *)
Theorem setter_frame (it : mapiter) (c : setter) (a : spanAttributes)
    (k : string) (d : attribute.Kind) :
  k ≠ setterKey c ∨ d ≠ setterKind c →
  entriesFor k d (Parse it (runSetter c a)) = entriesFor k d (Parse it a).
Proof.
  intros Hne. by rewrite !Parse_entriesFor, runSetter_stored_other.
Qed.

(** X10.  A setter call makes the output of [Parse] one entry longer
    when its key was not yet in the mapping of its kind, and leaves the
    length as it was otherwise. *)
Theorem setter_grows_by_at_most_one (it : mapiter) (c : setter) (a : spanAttributes) :
  length (Parse it (runSetter c a)) =
    (length (Parse it a) +
     match stored a (setterKey c) (setterKind c) with Some _ => 0 | None => 1 end)%nat.
Proof.
  rewrite !Parse_length_sizes.
  destruct c as [k v|k v|k v|k v|k v|k [e|]]; unfold setterKind;
    cbn [runSetter setterKey setterValue attribute.kindOf stored];
    rewrite ?ErrorKV_unfold;
    cbn [StrKV BoolKV IntKV FloatKV SliceKV Str Bool Int Float Slice];
    rewrite size_entries_assign; destruct (_ !! k); simpl; lia.
Qed.

(** X11.  [ErrorKV k err] leaves the accumulator exactly as [StrKV] with
    the message of [err] (or "<nil>") does. *)
Theorem ErrorKV_is_StrKV (k : string) (a : spanAttributes) :
  ErrorKV k None a = StrKV k "<nil>" a ∧
  ∀ e, ErrorKV k (Some e) a = StrKV k (errMsg e) a.
Proof. split; [|intros e]; apply ErrorKV_unfold. Qed.

(** ** Further properties of the span wrapper *)

Lemma flattened_lookup (a : spanAttributes) (k : string) :
  flattened a !! k =
    match stored a k attribute.STRINGSLICE with
    | Some v => Some v
    | None =>
      match stored a k attribute.FLOAT64 with
      | Some v => Some v
      | None =>
        match stored a k attribute.INT64 with
        | Some v => Some v
        | None =>
          match stored a k attribute.BOOL with
          | Some v => Some v
          | None => stored a k attribute.STRING
          end
        end
      end
    end.
Proof.
  unfold flattened, stored. rewrite !lookup_union, !lookup_fmap.
  destruct (entries (Slice a) !! k), (entries (Float a) !! k),
    (entries (Int a) !! k), (entries (Bool a) !! k), (entries (Str a) !! k);
    reflexivity.
Qed.

Lemma closed_gate_fixed (cs : list hookCall) (h : hooks) :
  sync.done (once h) = true → runHookCalls cs h = h.
Proof.
  intros Hdone. unfold runHookCalls.
  induction cs as [|c cs IH]; simpl; [done|].
  by rewrite once_done_noop.
Qed.

Lemma any_call_closes_gate (c : hookCall) (h : hooks) :
  sync.done (once (runHookCall c h)) = true.
Proof. destruct h as [cf [[]]], c; reflexivity. Qed.

(** X12.  After [Extract], the attribute the span carries for a key is
    the one the accumulator holds for it, taken from the string-list
    mapping if the key is there, else from the float, integer, boolean and
    string mappings in that order; a key the accumulator does not hold
    keeps the attribute the span had.  So when one key was set in several
    kinds, only one of the values reaches the span. *)
Theorem Span_Extract_lookup (it : mapiter) (s : Span) (k : string) :
  let a := Span_Attrs s in
  trace.attributesOf (trace.calls (Span_Span (Span_Extract it s))) !! k =
    match stored a k attribute.STRINGSLICE with
    | Some v => Some v
    | None =>
      match stored a k attribute.FLOAT64 with
      | Some v => Some v
      | None =>
        match stored a k attribute.INT64 with
        | Some v => Some v
        | None =>
          match stored a k attribute.BOOL with
          | Some v => Some v
          | None =>
            match stored a k attribute.STRING with
            | Some v => Some v
            | None => trace.attributesOf (trace.calls (Span_Span s)) !! k
            end
          end
        end
      end
    end.
Proof.
  intros a. subst a.
  unfold Span_Extract, onSpan, trace.SetAttributes, trace.issue.
  cbn [Span_Span trace.calls]. rewrite attributesOf_snoc.
  cbn [trace.attrStep]. rewrite setAttrs_Parse, lookup_union, flattened_lookup.
  destruct (stored (Span_Attrs s) k attribute.STRINGSLICE),
    (stored (Span_Attrs s) k attribute.FLOAT64),
    (stored (Span_Attrs s) k attribute.INT64),
    (stored (Span_Attrs s) k attribute.BOOL),
    (stored (Span_Attrs s) k attribute.STRING);
    simpl; by destruct (trace.attributesOf (trace.calls (Span_Span s)) !! k).
Qed.

(** X13.  [New] reads only its first option: further options are
    ignored, and giving no option is the same as giving one with empty
    [Kind] and [TracerName]. *)
Theorem New_first_option_only (ctx : Context) (spanName : string)
    (o : startOptions) (rest : list startOptions) :
  New ctx spanName (o :: rest) = New ctx spanName [o] ∧
  New ctx spanName [] = New ctx spanName [mkStartOptions "" ""].
Proof. split; [done|]. unfold New. simpl. by rewrite kindMap_lookup. Qed.

(** X14.  Whatever the options, the span [New] returns is named as
    asked, has one of the five kinds (never the unspecified one), has had
    no call made on it, sits in the context derived from the parent, and
    comes with an accumulator whose mappings are all nil, so [Parse] of it
    is empty. *)
Theorem New_fresh (it : mapiter) (ctx : Context) (spanName : string)
    (tracerArgs : list startOptions) :
  let s := New ctx spanName tracerArgs in
  trace.name (Span_Span s) = spanName ∧
  trace.tracerName (Span_Span s)
    = match tracerArgs with o :: _ => TracerName o | [] => "" end ∧
  trace.kind (Span_Span s) ≠ trace.SpanKindUnspecified ∧
  trace.calls (Span_Span s) = [] ∧
  Span_Ctx s = ContextWithSpan ctx (Span_Span s) ∧
  Span_Attrs s = NewAttrs ∧
  Parse it (Span_Attrs s) = [].
Proof.
  intros s. subst s.
  assert (Parse it NewAttrs = []) as Hnil.
  { apply length_zero_iff_nil. rewrite Parse_length_sizes. simpl.
    by rewrite !map_size_empty. }
  unfold New. destruct tracerArgs as [|o rest]; simpl.
  - by repeat split.
  - rewrite kindMap_lookup. repeat split; try done.
    repeat (destruct (decide _); [done|]). done.
Qed.

Lemma Span_EndAt_direct (it : mapiter) (s : Span) (g : goroutine) :
  Span_EndAt true it s g = Span_End it s g.
Proof. reflexivity. Qed.

(** X15.  A call of [End] ends the underlying span once, from any call
    depth and whatever the state of the goroutine: the last call on the
    span is [End], the count of ends grows by one, the calls made before
    are kept, and context and accumulator are unchanged.  A panic that is
    unwinding is stopped when [End] is itself the deferred call, and keeps
    unwinding when [End] is called from deeper. *)
Theorem Span_End_always_ends (direct : bool) (it : mapiter) (s : Span)
    (g : goroutine) :
  let res := Span_EndAt direct it s g in
  last (trace.calls (Span_Span res.1)) = Some trace.CallEnd ∧
  trace.endCount (trace.calls (Span_Span res.1))
    = S (trace.endCount (trace.calls (Span_Span s))) ∧
  trace.calls (Span_Span s) `prefix_of` trace.calls (Span_Span res.1) ∧
  panicking res.2 = (if direct then None else panicking g) ∧
  Span_Ctx res.1 = Span_Ctx s ∧ Span_Attrs res.1 = Span_Attrs s.
Proof.
  intros res. subst res. destruct direct, g as [[r|]]; simpl; repeat split;
    rewrite ?last_snoc; try done;
    try (rewrite !endCount_snoc; simpl; lia);
    rewrite <- ?app_assoc; by apply prefix_app_r.
Qed.

(** X16.  [End] does not guard against being called again: two calls
    end the underlying span twice, whatever their call depths.  When the
    first [End] is itself the deferred call, the second runs on the normal
    path, even if the first recovered a panic: it flushes the accumulator
    and ends the span again.  When the first is called from deeper while a
    panic unwinds and the second is the deferred call itself, the first
    flushes and ends with the panic still unwinding, and the second then
    records the panic and ends the span without flushing. *)
Theorem Span_End_twice (d1 d2 : bool) (it1 it2 : mapiter) (s : Span)
    (g : goroutine) :
  let r1 := Span_EndAt d1 it1 s g in
  let r2 := Span_EndAt d2 it2 r1.1 r1.2 in
  trace.endCount (trace.calls (Span_Span r2.1))
    = S (S (trace.endCount (trace.calls (Span_Span s)))) ∧
  (d1 = true →
   trace.calls (Span_Span r2.1) =
     trace.calls (Span_Span r1.1) ++
       [trace.CallSetAttributes (Parse it2 (Span_Attrs s)); trace.CallEnd]) ∧
  (∀ r, d1 = false → d2 = true → panicking g = Some r →
   let err := errorNew ("recovered from panic: " +:+ Sprint_v r) in
   trace.calls (Span_Span r2.1) =
     trace.calls (Span_Span s) ++
       [trace.CallSetAttributes (Parse it1 (Span_Attrs s)); trace.CallEnd;
        trace.CallRecordError err true;
        trace.CallSetStatus codes.Error (errMsg err); trace.CallEnd]).
Proof.
  intros r1 r2. subst r1 r2. split; [|split].
  - destruct d1, d2, g as [[r|]]; simpl;
      rewrite !endCount_snoc; simpl; lia.
  - intros ->. destruct d2, g as [[r|]]; simpl; by rewrite <- ?app_assoc.
  - intros r -> -> Hg. destruct g as [g]. simpl in Hg. subst g. simpl.
    by rewrite <- !app_assoc.
Qed.

(** X17.  The status operations [OK], [SError] and [Error] never end the
    span, never change the attributes it carries, and leave context and
    accumulator alone. *)
Theorem status_operations_frame (s : Span) (ms : list string) (m : string)
    (err : error) (flags : list bool) :
  let untouched s' :=
    trace.endCount (trace.calls (Span_Span s'))
      = trace.endCount (trace.calls (Span_Span s)) ∧
    trace.attributesOf (trace.calls (Span_Span s'))
      = trace.attributesOf (trace.calls (Span_Span s)) ∧
    Span_Ctx s' = Span_Ctx s ∧ Span_Attrs s' = Span_Attrs s in
  untouched (Span_OK ms s) ∧
  untouched (Span_SError m s) ∧
  untouched (Span_Error err flags s).
Proof.
  intros untouched. subst untouched. cbv beta. split; [|split].
  - simpl. by rewrite endCount_snoc, attributesOf_snoc, Nat.add_0_r.
  - unfold Span_SError. destruct (decide (m = "")); [done|].
    simpl. by rewrite endCount_snoc, attributesOf_snoc, Nat.add_0_r.
  - destruct err as [e|]; [|done].
    destruct flags as [|[] flags]; simpl;
      by rewrite !endCount_snoc, !attributesOf_snoc, ?Nat.add_0_r.
Qed.

(** X18.  For a non-empty message, [SError m] does what [Error] does
    for an error with message [m] and no flag.  For the empty message they
    differ: [SError ""] does nothing, while [Error] given a non-nil error
    whose message is empty still sets the status to Error. *)
Theorem SError_versus_Error (s : Span) :
  (∀ m, m ≠ "" → Span_SError m s = Span_Error (Some (errorNew m)) [] s) ∧
  Span_SError "" s = s ∧
  trace.calls (Span_Span (Span_Error (Some (errorNew "")) [] s))
    = trace.calls (Span_Span s) ++ [trace.CallSetStatus codes.Error ""].
Proof.
  split; [|done]. intros m Hm. unfold Span_SError.
  by rewrite decide_False by done.
Qed.

(** ** Further properties of the hook registry *)

(** X19.  Starting from a fresh process, no sequence of calls ever
    leaves both hooks set. *)
Theorem never_both_hooks (cs : list hookCall) :
  errorFunc (cfg (runHookCalls cs hooks0)) = None ∨
  panicFunc (cfg (runHookCalls cs hooks0)) = None.
Proof.
  destruct cs as [|c cs]; [by left|].
  change (runHookCalls (c :: cs) hooks0)
    with (runHookCalls cs (runHookCall c hooks0)).
  rewrite closed_gate_fixed by apply any_call_closes_gate.
  destruct c; simpl; [by right|by left].
Qed.

(** X20.  In any state of the registry, one call of either setter closes
    the gate, and once the gate is closed no sequence of calls changes the
    registry. *)
Theorem gate_closes_for_good (h : hooks) (c : hookCall) (cs : list hookCall) :
  sync.done (once (runHookCall c h)) = true ∧
  runHookCalls cs (runHookCall c h) = runHookCall c h ∧
  (sync.done (once h) = true → runHookCalls (c :: cs) h = h).
Proof.
  split; [apply any_call_closes_gate|]. split.
  - apply closed_gate_fixed, any_call_closes_gate.
  - intros Hdone. by apply closed_gate_fixed.
Qed.

(** X21.  Passing a nil function in the first call uses up the gate: the
    registry then stays without any hook, whatever is registered later. *)
Theorem nil_hook_uses_up_gate (cs : list hookCall) :
  cfg (runHookCalls (CallSetErrorFunc None :: cs) hooks0) = mkConfig None None ∧
  cfg (runHookCalls (CallSetPanicFunc None :: cs) hooks0) = mkConfig None None.
Proof.
  split.
  - change (runHookCalls (CallSetErrorFunc None :: cs) hooks0)
      with (runHookCalls cs (runHookCall (CallSetErrorFunc None) hooks0)).
    by rewrite closed_gate_fixed by apply any_call_closes_gate.
  - change (runHookCalls (CallSetPanicFunc None :: cs) hooks0)
      with (runHookCalls cs (runHookCall (CallSetPanicFunc None) hooks0)).
    by rewrite closed_gate_fixed by apply any_call_closes_gate.
Qed.

(** ** Properties of events and links *)

Lemma runBuilderCalls_snoc (cs : list builderCall) (c : builderCall) (e : spanEvents) :
  runBuilderCalls (cs ++ [c]) e = runBuilderCall c (runBuilderCalls cs e).
Proof. unfold runBuilderCalls. by rewrite foldl_snoc. Qed.

Lemma runBuilderCalls_fields (cs : list builderCall) (e : spanEvents) :
  msg (runBuilderCalls cs e) = msg e ∧
  timestamp (runBuilderCalls cs e)
    = match lastTimestamp cs with Some t => Some t | None => timestamp e end ∧
  attrs (runBuilderCalls cs e)
    = match last (omap (λ c, match c with CallAttributes p => Some p | _ => None end) cs)
      with Some p => p | None => attrs e end.
Proof.
  induction cs as [|c cs IH] using rev_ind; [done|].
  destruct IH as (Hm & Ht & Ha).
  rewrite runBuilderCalls_snoc. unfold lastTimestamp.
  rewrite !omap_app. destruct c as [t|p]; simpl.
  - rewrite last_snoc, app_nil_r. by rewrite Hm, Ha.
  - rewrite last_snoc, app_nil_r. by rewrite Hm, Ht.
Qed.

Lemma Parse_NewAttrs (it : mapiter) : Parse it NewAttrs = [].
Proof.
  apply length_zero_iff_nil. rewrite Parse_length_sizes. simpl.
  by rewrite !map_size_empty.
Qed.

(** X22.  However the descriptor made by [Event] is configured, [Add]
    sends one event with the message given to [Event]: it carries the
    timestamp of the last [Timestamp] call if there was one, then the
    attributes of the accumulator given to the last [Attributes] call if
    there was one and it was not nil, and no other option; earlier
    annotations are kept. *)
Theorem Add_after_builder_calls (it : mapiter) (mem : nat → spanAttributes) (s : Span)
    (m : string) (cs : list builderCall) (notes : list annotation) :
  Add it mem (runBuilderCalls cs (Span_Event m s)) notes =
    notes ++
      [CallAddEvent m
         (match lastTimestamp cs with Some t => [WithTimestamp t] | None => [] end ++
          match lastAttributes cs with
          | Some p => [WithAttributes (Parse it (mem p))]
          | None => []
          end)].
Proof.
  destruct (runBuilderCalls_fields cs (Span_Event m s)) as (Hm & Ht & Ha).
  unfold Add, lastAttributes. rewrite Hm, Ht, Ha. simpl.
  destruct (lastTimestamp cs);
    destruct (last (omap _ cs)) as [[p|]|]; reflexivity.
Qed.

(** X23.  [Add] reads the accumulator when it runs, not when
    [Attributes] was called: what a setter writes through the same pointer
    in between is part of the event. *)
Theorem Add_sees_later_setter (it : mapiter) (mem : nat → spanAttributes)
    (e : spanEvents) (p : nat) (c : setter) (notes : list annotation) :
  let e' := Attributes (Some p) e in
  let mem' := store p (runSetter c (mem p)) mem in
  let kv := Parse it (runSetter c (mem p)) in
  Add it mem' e' notes =
    notes ++
      [CallAddEvent (msg e)
         (match timestamp e with Some t => [WithTimestamp t] | None => [] end ++
          [WithAttributes kv])] ∧
  attribute.mkKeyValue (setterKey c) (setterValue c) ∈ kv.
Proof.
  intros e' mem' kv. subst e' mem' kv. split.
  - unfold Add, Attributes, store. simpl. rewrite decide_True by done.
    by destruct (timestamp e).
  - pose proof (Parse_after_setter it c (mem p)) as Hin.
    assert (attribute.mkKeyValue (setterKey c) (setterValue c)
              ∈ entriesFor (setterKey c) (setterKind c)
                  (Parse it (runSetter c (mem p))))
      as Hel by (rewrite Hin; apply list_elem_of_singleton; reflexivity).
    unfold entriesFor in Hel. by apply list_elem_of_filter in Hel as [_ ?].
Qed.

(** X24.  [AddLink] reads only the first accumulator it is given.  It
    records one link to the given context, with the output of [Parse] of
    that accumulator as attributes; with no accumulator, or with one whose
    mappings are all nil, the link has no attributes. *)
Theorem Span_AddLink_attributes (it : mapiter) (ctx : Context)
    (a : spanAttributes) (rest : list spanAttributes) (notes : list annotation) :
  Span_AddLink it ctx (a :: rest) notes
    = notes ++ [CallAddLink (LinkFromContext ctx (Parse it a))] ∧
  Span_AddLink it ctx [] notes = notes ++ [CallAddLink (LinkFromContext ctx [])] ∧
  Span_AddLink it ctx (NewAttrs :: rest) notes = Span_AddLink it ctx [] notes.
Proof.
  split; [done|]. split; [done|].
  unfold Span_AddLink. by rewrite Parse_NewAttrs.
Qed.

End tracer.

(** ** The theorems at concrete inputs *)

(** C3: [Error(err, true)] on a fresh span records the error without a
    stack trace; no call on the span asks for one. *)
Lemma Span_Error_flag_no_stack_trace :
  let s := New unit (λ c _, c) tt "op" [] in
  let boom := errorNew "boom" in
  trace.calls (Span_Span unit (Span_Error unit (Some boom) [true] s))
    = [trace.CallRecordError boom false; trace.CallSetStatus codes.Error "boom"] ∧
  ¬ (trace.CallRecordError boom true
       ∈ trace.calls (Span_Span unit (Span_Error unit (Some boom) [true] s))).
Proof.
  simpl. split; [reflexivity|].
  intros Hin. apply elem_of_cons in Hin as [Heq|Hin]; [discriminate|].
  apply elem_of_cons in Hin as [Heq|Hin]; [discriminate|].
  by apply elem_of_nil in Hin.
Qed.

(** C6: [StrKV] and [ErrorKV] are two different typed setters, and after
    both are called with the same key [Parse] has one entry for it. *)
Lemma Parse_StrKV_ErrorKV_one_entry :
  nameOf (CallStrKV "k" "v") ≠ nameOf (CallErrorKV "k" None) ∧
  entriesForKey "k"
    (Parse inOrder (runSetters [CallStrKV "k" "v"; CallErrorKV "k" None] NewAttrs))
  = [attribute.String "k" "<nil>"] ∧
  entriesForKey "k"
    (Parse reversed (runSetters [CallStrKV "k" "v"; CallErrorKV "k" None] NewAttrs))
  = [attribute.String "k" "<nil>"].
Proof. split; [discriminate|]. split; vm_compute; reflexivity. Qed.

Lemma New_kind_witness :
  (Kind (mkStartOptions "Server" "svc")
     ∉ ["internal"; "server"; "client"; "producer"; "consumer"]) ∧
  trace.kind (Span_Span unit
    (New unit (λ c _, c) tt "op" [mkStartOptions "Server" "svc"]))
  = trace.SpanKindInternal.
Proof.
  assert (Kind (mkStartOptions "Server" "svc")
            ∉ ["internal"; "server"; "client"; "producer"; "consumer"]) as Hnot.
  { compute_done. }
  split; [exact Hnot|].
  exact (proj2 (proj2 (New_kind unit (λ c _, c) tt "op")) _ [] Hnot).
Defined.

Lemma Parse_two_kinds_witness :
  let a := StrKV "other" "x" (BoolKV "flag" true NewAttrs) in
  let a' := runSetters [CallStrKV "k" "v"; CallIntKV "k" 7] a in
  (∀ d, stored a "k" d = None) ∧
  entriesFor "k" attribute.STRING (Parse reversed a') = [attribute.String "k" "v"] ∧
  entriesFor "k" attribute.INT64 (Parse reversed a') = [attribute.Int "k" 7] ∧
  entriesForKey "k" (Parse reversed a')
    ≡ₚ [attribute.String "k" "v"; attribute.Int "k" 7].
Proof.
  intros a a'. subst a a'.
  assert (∀ d, stored (StrKV "other" "x" (BoolKV "flag" true NewAttrs)) "k" d = None)
    as Hnone by (intros d; destruct d; vm_compute; reflexivity).
  destruct (Parse_two_kinds reversed (StrKV "other" "x" (BoolKV "flag" true NewAttrs))
              "k" (CallStrKV "k" "v") (CallIntKV "k" 7))
    as (H1 & H2 & _ & H4); [reflexivity|reflexivity|discriminate|].
  split; [exact Hnone|]. split; [exact H1|]. split; [exact H2|exact (H4 Hnone)].
Defined.

Lemma Parse_last_write_wins_witness :
  entriesFor "k" attribute.BOOL
    (Parse inOrder
       (runSetters ([CallBoolKV "k" true; CallBoolKV "k" true] ++ [CallBoolKV "k" false])
          (StrKV "k" "v" NewAttrs)))
  = [attribute.Bool "k" false].
Proof.
  apply (Parse_last_write_wins inOrder (StrKV "k" "v" NewAttrs) nBoolKV "k").
  repeat constructor.
Defined.

Lemma Span_SError_spec_witness :
  "timeout" ≠ "" ∧
  trace.calls (Span_Span unit
    (Span_SError unit "timeout" (New unit (λ c _, c) tt "op" [])))
  = [trace.CallSetStatus codes.Error "timeout"].
Proof.
  assert ("timeout" ≠ "") as Hne by discriminate.
  split; [exact Hne|].
  exact (proj2 (proj2 (Span_SError_spec unit (New unit (λ c _, c) tt "op" []))
                  "timeout" Hne)).
Defined.

(** A span of kind "server" with a string and an integer attribute, ended
    on normal return: the span keeps its kind, no status call is made,
    both attributes are on the span and it is ended once. *)
Example server_span_scenario :
  let s0 := New unit (λ c _, c) tt "handle" [mkStartOptions "server" "http"] in
  let s1 := mkSpanHandle unit (Span_Ctx unit s0) (Span_Span unit s0)
              (IntKV "status" 200 (StrKV "route" "/x" (Span_Attrs unit s0))) in
  let res := Span_End unit (λ _, "") unit reversed s1 (mkGoroutine unit None) in
  let span := Span_Span unit res.1 in
  trace.kind span = trace.SpanKindServer ∧
  trace.attributesOf (trace.calls span) !! "route" = Some (attribute.StringValue "/x") ∧
  trace.attributesOf (trace.calls span) !! "status" = Some (attribute.Int64Value 200) ∧
  trace.endCount (trace.calls span) = 1%nat ∧
  trace.calls span =
    [trace.CallSetAttributes [attribute.String "route" "/x"; attribute.Int "status" 200];
     trace.CallEnd].
Proof. vm_compute. repeat split. Qed.

Lemma setters_commute_witness :
  runSetter (CallStrKV "a" "1") (runSetter (CallErrorKV "b" None) NewAttrs)
  = runSetter (CallErrorKV "b" None) (runSetter (CallStrKV "a" "1") NewAttrs).
Proof.
  apply (setters_commute (CallStrKV "a" "1") (CallErrorKV "b" None) NewAttrs).
  left. discriminate.
Defined.

Lemma setter_overwrites_witness :
  runSetter (CallErrorKV "k" None) (runSetter (CallStrKV "k" "v") NewAttrs)
  = runSetter (CallErrorKV "k" None) NewAttrs.
Proof.
  apply (setter_overwrites (CallStrKV "k" "v") (CallErrorKV "k" None) NewAttrs);
    reflexivity.
Defined.

Lemma setter_frame_witness :
  entriesFor "k" attribute.STRING
    (Parse reversed (runSetter (CallIntKV "k" 1) (StrKV "k" "v" NewAttrs)))
  = entriesFor "k" attribute.STRING (Parse reversed (StrKV "k" "v" NewAttrs)).
Proof.
  apply (setter_frame reversed (CallIntKV "k" 1) (StrKV "k" "v" NewAttrs)).
  right. discriminate.
Defined.

Lemma SError_versus_Error_witness :
  "timeout" ≠ "" ∧
  Span_SError unit "timeout" (New unit (λ c _, c) tt "op" [])
  = Span_Error unit (Some (errorNew "timeout")) [] (New unit (λ c _, c) tt "op" []).
Proof.
  assert ("timeout" ≠ "") as Hne by discriminate.
  split; [exact Hne|].
  exact (proj1 (SError_versus_Error unit (New unit (λ c _, c) tt "op" []))
           "timeout" Hne).
Defined.

Lemma gate_closes_for_good_witness :
  let h := SetErrorFunc unit None (hooks0 unit) in
  sync.done (once unit h) = true ∧
  runHookCalls unit [CallSetPanicFunc unit (Some (λ _, tt)); CallSetErrorFunc unit None] h
  = h.
Proof.
  simpl. split; [reflexivity|].
  exact (proj2 (proj2 (gate_closes_for_good unit
           (SetErrorFunc unit None (hooks0 unit))
           (CallSetPanicFunc unit (Some (λ _, tt)))
           [CallSetErrorFunc unit None])) eq_refl).
Defined.

(** An event configured with attributes first and time second, on an
    accumulator that is written once more before [Add]. *)
Example event_scenario :
  let s := New unit (λ c _, c) tt "op" [] in
  let mem := store 0 (StrKV "user" "u1" NewAttrs) (λ _, NewAttrs) in
  let e := Timestamp nat 42 (Attributes nat (Some 0%nat) (Span_Event unit nat "login" s)) in
  let mem' := store 0 (IntKV "tries" 3 (mem 0%nat)) mem in
  Add unit nat inOrder mem' e [] =
    [CallAddEvent unit nat "login"
       [WithTimestamp nat 42;
        WithAttributes nat [attribute.String "user" "u1"; attribute.Int "tries" 3]]].
Proof. vm_compute. reflexivity. Qed.

Lemma Span_End_twice_witness :
  let s := mkSpanHandle unit tt (trace.mkSpan "" "op" trace.SpanKindInternal [])
             (StrKV "k" "v" NewAttrs) in
  let g := mkGoroutine string (Some "boom") in
  let viaClosure := Span_EndAt string id unit false inOrder s g in
  let deferred := Span_EndAt string id unit true inOrder viaClosure.1 viaClosure.2 in
  panicking string viaClosure.2 = Some "boom" ∧
  trace.calls (Span_Span unit deferred.1) =
    [trace.CallSetAttributes [attribute.String "k" "v"]; trace.CallEnd;
     trace.CallRecordError (errorNew "recovered from panic: boom") true;
     trace.CallSetStatus codes.Error "recovered from panic: boom"; trace.CallEnd] ∧
  trace.calls (Span_Span unit
      (Span_EndAt string id unit false inOrder
         (Span_EndAt string id unit true inOrder s g).1
         (Span_EndAt string id unit true inOrder s g).2).1) =
    [trace.CallRecordError (errorNew "recovered from panic: boom") true;
     trace.CallSetStatus codes.Error "recovered from panic: boom"; trace.CallEnd;
     trace.CallSetAttributes [attribute.String "k" "v"]; trace.CallEnd].
Proof.
  intros s g viaClosure deferred. subst viaClosure deferred.
  split; [reflexivity|]. split.
  - exact (proj2 (proj2 (Span_End_twice string id unit false true inOrder inOrder s g))
             "boom" eq_refl eq_refl eq_refl).
  - exact (proj1 (proj2 (Span_End_twice string id unit true false inOrder inOrder s g))
             eq_refl).
Defined.
